(** * Fonduer feature annotator: a shallow embedding of
      [fonduer/features/f_annotator.py] and of the annotation schema of
      [fonduer/utils/models/annotation.py].

    The relational store is a record of tables (lists of rows).  The
    worker [FAnnotatorUDF.apply] is a Python generator that interleaves
    session queries with [yield]s; it is embedded as a tree of requests
    ([Gen]) that a runner interprets against the store. *)

From Stdlib Require Import ZArith List String Bool Lia.
Import ListNotations.
Local Open Scope string_scope.
Local Open Scope list_scope.
Local Open Scope Z_scope.

(** ** The store *)

(** A candidate class is identified by its [__tablename__].  The class
    [Candidate] itself is the one of table [candidate], the table the
    foreign key of [AnnotationMixin.candidate_id] names; every other
    candidate class has a table of its own, whose rows carry the [id] of
    their row of table [candidate]. *)
Definition CandidateClass := string.

Definition is_Candidate (x : CandidateClass) : bool := String.eqb x "candidate".

(** Rows of table [candidate]: [Candidate.id], the [type] of the row and
    [Candidate.split]. *)
Record Candidate := mkCandidate {
  cand_id : Z;
  cand_type : CandidateClass;
  cand_split : Z
}.

(** A row of the table of a candidate class: the table and the [id]. *)
Definition ClassRow : Type := CandidateClass * Z.

(** [AnnotationKeyMixin]: columns [id], [name], [group]. *)
Record FeatureKey := mkFeatureKey {
  key_id : Z;
  key_name : string;
  key_group : Z
}.

(** [AnnotationMixin] with the [values] column of an annotation class:
    [candidate_id], [keys], [values].  Values are integers, as in
    [Label.values]; the worker only compares them with 0. *)
Record Feature := mkFeature {
  candidate_id : Z;
  keys : list string;
  values : list Z
}.

(** The session: one list of rows per table (the tables of the candidate
    classes together in [class_rows]), and the sequence that numbers
    [FeatureKey.id]. *)
Record Session := mkSession {
  candidates : list Candidate;
  class_rows : list ClassRow;
  feature_keys : list FeatureKey;
  features : list Feature;
  key_seq : Z
}.

Fixpoint list_eqb {A : Type} (eqb : A -> A -> bool) (l1 l2 : list A) : bool :=
  match l1, l2 with
  | [], [] => true
  | x :: l1', y :: l2' => eqb x y && list_eqb eqb l1' l2'
  | _, _ => false
  end.

(** Column-wise equality of two annotation rows, as the [where] clauses of
    [FAnnotatorUDF.apply] compare them. *)
Definition Feature_eqb (f g : Feature) : bool :=
  (candidate_id f =? candidate_id g)
  && list_eqb String.eqb (keys f) (keys g)
  && list_eqb Z.eqb (values f) (values g).

(** [session.query(candidate_class)]: the rows of table [candidate] for
    the class [Candidate], and for any other class the rows of table
    [candidate] joined on [id] with the rows of the table of the class. *)
Definition query_class (session : Session) (candidate_class : CandidateClass)
    : list Candidate :=
  if is_Candidate candidate_class then candidates session
  else
    filter
      (fun c =>
         existsb (fun r : ClassRow => String.eqb (fst r) candidate_class
                                      && (snd r =? cand_id c))
                 (class_rows session))
      (candidates session).

(** [session.query(candidate_class) ... .delete()], for the rows of the
    class whose [id] the query selects.  The DELETE is on the table of the
    class.  For a class with a table of its own only rows of that table
    go.  For the class [Candidate] the rows of table [candidate] go, and
    with them the rows that reference them with ON DELETE CASCADE: the
    annotation rows ([AnnotationMixin.candidate_id]) and the rows of the
    tables of the candidate classes. *)
Definition delete_rows (session : Session) (candidate_class : CandidateClass)
    (query : Z -> bool) : Session :=
  if is_Candidate candidate_class then
    let deleted := filter query (map cand_id (candidates session)) in
    let gone := fun id : Z => existsb (Z.eqb id) deleted in
    {| candidates := filter (fun c => negb (query (cand_id c))) (candidates session);
       class_rows := filter (fun r : ClassRow => negb (gone (snd r))) (class_rows session);
       feature_keys := feature_keys session;
       features := filter (fun f => negb (gone (candidate_id f))) (features session);
       key_seq := key_seq session |}
  else
    {| candidates := candidates session;
       class_rows :=
         filter (fun r : ClassRow =>
                   negb (String.eqb (fst r) candidate_class && query (snd r)))
                (class_rows session);
       feature_keys := feature_keys session;
       features := features session;
       key_seq := key_seq session |}.

(** [session.query(FeatureKey).delete()]. *)
Definition delete_feature_keys (session : Session) : Session :=
  {| candidates := candidates session;
     class_rows := class_rows session;
     feature_keys := [];
     features := features session;
     key_seq := key_seq session |}.

(** [session.query(Feature).delete()]. *)
Definition delete_features (session : Session) : Session :=
  {| candidates := candidates session;
     class_rows := class_rows session;
     feature_keys := feature_keys session;
     features := [];
     key_seq := key_seq session |}.

(** ** Session queries *)

(** The two queries the worker issues, and whether [.first()] finds a row. *)
Inductive Query : Type :=
| FeatureKey_by_name (key_name : string)
    (* session.query(FeatureKey).filter(FeatureKey.name == key_name) *)
| Feature_where (feature_args : Feature).
    (* select([Feature.id]) with one where clause per item of feature_args *)

Definition first (session : Session) (q : Query) : bool :=
  match q with
  | FeatureKey_by_name name =>
      existsb (fun k => String.eqb (key_name k) name) (feature_keys session)
  | Feature_where feature_args =>
      existsb (Feature_eqb feature_args) (features session)
  end.

(** ** Generators *)

(** What the worker yields: a transient [FeatureKey(name=key)] or a
    transient [Feature(candidate_id, keys, values)]. *)
Inductive Obj : Type :=
| NewFeatureKey (name : string)
| NewFeature (f : Feature).

(** The exception the modelled code raises. *)
Inductive Exception : Type := AttributeError.

(** How a call ends: it returns a value or raises. *)
Inductive Outcome (A : Type) : Type :=
| Returned (a : A)
| Raised (e : Exception).

Arguments Returned {A} a.
Arguments Raised {A} e.

(** A generator body: it returns, yields an object and goes on, asks the
    session a query and goes on with the answer, or raises. *)
Inductive Gen (A : Type) : Type :=
| Return (a : A)
| Yield (y : Obj) (k : Gen A)
| Ask (q : Query) (k : bool -> Gen A)
| Raise (e : Exception).

Arguments Return {A} a.
Arguments Yield {A} y k.
Arguments Ask {A} q k.
Arguments Raise {A} e.

Fixpoint bind {A B : Type} (g : Gen A) (f : A -> Gen B) : Gen B :=
  match g with
  | Return a => f a
  | Yield y k => Yield y (bind k f)
  | Ask q k => Ask q (fun b => bind (k b) f)
  | Raise e => Raise e
  end.

Definition yield (y : Obj) : Gen unit := Yield y (Return tt).
Definition ask (q : Query) : Gen bool := Ask q (fun b => Return b).

Notation "x <- g ;; h" := (bind g (fun x => h))
  (at level 61, g at next level, right associativity).
Notation "g ;;; h" := (bind g (fun _ => h))
  (at level 61, right associativity).

(** [Emits g y]: some run of [g], whatever the session answers, yields [y]. *)
Inductive Emits {A : Type} : Gen A -> Obj -> Prop :=
| Emits_here y k : Emits (Yield y k) y
| Emits_later y y' k : Emits k y -> Emits (Yield y' k) y
| Emits_ask q k b y : Emits (k b) y -> Emits (Ask q k) y.

(** A loop whose body may raise: the exception ends the loop. *)
Fixpoint for_each {A B : Type} (body : A -> B -> Outcome A) (xs : list B) (a : A)
    : Outcome A :=
  match xs with
  | [] => Returned a
  | x :: xs =>
      match body a x with
      | Returned a' => for_each body xs a'
      | Raised e => Raised e
      end
  end.

(** ** [FAnnotatorUDF] *)

Module FAnnotatorUDF.
Section Worker.

(** [fonduer.features.features.get_all_feats]: the triples
    [(cid, key_name, feature)] computed for a candidate. *)
Variable get_all_feats : Candidate -> list (Z * string * Z).

(** [FAnnotatorUDF._get_FeatureKey]. *)
Definition _get_FeatureKey (key : string) : Obj := NewFeatureKey key.

(** The mapped attributes of an annotation class: those [AnnotationMixin]
    declares and the [values] column.  There is no [id]: the primary key
    is [candidate_id]. *)
Definition Feature_attributes : list string :=
  [ "keys"; "candidate_id"; "candidate"; "values" ].

(** [Feature.<name>]: the attribute, or [AttributeError]. *)
Definition getattr_Feature (name : string) : Outcome string :=
  if existsb (String.eqb name) Feature_attributes then Returned name
  else Raised AttributeError.

(** The [for cid, key_name, feature in get_all_feats(candidate)] loop,
    with the lists [keys] and [values] built so far. *)
Fixpoint feats_loop (feats : list (Z * string * Z)) (keys : list string)
    (values : list Z) : Gen (list string * list Z) :=
  match feats with
  | [] => Return (keys, values)
  | (cid, key_name, feature) :: feats =>
      if feature =? 0 then feats_loop feats keys values
      else
        found <- ask (FeatureKey_by_name key_name) ;;
        (if negb found then yield (_get_FeatureKey key_name) else Return tt) ;;;
        feats_loop feats (keys ++ [key_name]) (values ++ [feature])
  end.

(** [FAnnotatorUDF.apply].  With [clear] off the first statement of the
    check for an existing row is [q = select([Feature.id])]. *)
Definition apply (candidate : Candidate) (clear : bool) : Gen unit :=
  kv <- feats_loop (get_all_feats candidate) [] [] ;;
  let feature_args :=
    {| candidate_id := cand_id candidate; keys := fst kv; values := snd kv |} in
  if negb clear then
    match getattr_Feature "id" with
    | Raised e => Raise e
    | Returned _ =>
        feature_id <- ask (Feature_where feature_args) ;;
        if feature_id then Return tt
        else yield (NewFeature feature_args)
    end
  else yield (NewFeature feature_args).

End Worker.
End FAnnotatorUDF.

(** ** The runner *)

Module UDFRunner.

(** Modelled from the spec: [KeyRegistry.getOrCreate] of the missing
    [fonduer.utils.udf] (section 4.1): the key of [(name, group)] is
    fetched when it exists and created otherwise; the call returns the
    session and the key's id. *)
Definition getOrCreate (session : Session) (name : string) (group : Z) : Session * Z :=
  match
    find (fun k => String.eqb (key_name k) name && (key_group k =? group))
         (feature_keys session)
  with
  | Some k => (session, key_id k)
  | None =>
      ({| candidates := candidates session;
          class_rows := class_rows session;
          feature_keys :=
            feature_keys session
            ++ [{| key_id := key_seq session; key_name := name; key_group := group |}];
          features := features session;
          key_seq := key_seq session + 1 |},
       key_seq session)
  end.

Inductive Mode : Type := Replace | AppendIfAbsent.

(** Modelled from the spec: [AnnotationStore.upsert] of the missing
    [fonduer.utils.udf] (sections 3, 4.2 and 9).  [Replace] overwrites the
    row of the candidate.  [AppendIfAbsent] is a no-op when an identical
    row exists, creates no row and updates none when the candidate
    already has a row, and writes the row otherwise. *)
Definition upsert (session : Session) (f : Feature) (mode : Mode) : Session :=
  let same_candidate := fun g : Feature => candidate_id g =? candidate_id f in
  match mode with
  | Replace =>
      {| candidates := candidates session;
         class_rows := class_rows session;
         feature_keys := feature_keys session;
         features := filter (fun g => negb (same_candidate g)) (features session) ++ [f];
         key_seq := key_seq session |}
  | AppendIfAbsent =>
      if existsb (Feature_eqb f) (features session) then session
      else if existsb same_candidate (features session) then session
      else
        {| candidates := candidates session;
           class_rows := class_rows session;
           feature_keys := feature_keys session;
           features := features session ++ [f];
           key_seq := key_seq session |}
  end.

(** Modelled from the spec: the serialized drain of the missing
    [fonduer.utils.udf] (section 4.4): a yielded key goes through
    [getOrCreate] with the column default [group = 0], a yielded row
    through [upsert]. *)
Definition write (mode : Mode) (session : Session) (y : Obj) : Session :=
  match y with
  | NewFeatureKey name => fst (getOrCreate session name 0)
  | NewFeature f => upsert session f mode
  end.

(** Modelled from the spec: one worker generator driven to its end by the
    drain of the missing [fonduer.utils.udf]; each query reads the session
    as the writes so far have left it, and an exception of the worker ends
    the run. *)
Fixpoint drain {A : Type} (mode : Mode) (g : Gen A) (session : Session)
    : Outcome Session :=
  match g with
  | Return _ => Returned session
  | Yield y k => drain mode k (write mode session y)
  | Ask q k => drain mode (k (first session q)) session
  | Raise e => Raised e
  end.

(** Modelled from the spec: the objects the worker yields during that
    drain of the missing [fonduer.utils.udf], in order. *)
Fixpoint emitted {A : Type} (mode : Mode) (g : Gen A) (session : Session) : list Obj :=
  match g with
  | Return _ => []
  | Yield y k => y :: emitted mode k (write mode session y)
  | Ask q k => emitted mode (k (first session q)) session
  | Raise _ => []
  end.

(** Modelled from the spec: the mode of [upsert] the missing
    [fonduer.utils.udf] writes rows with (section 3): replace mode with
    [clear], append mode without. *)
Definition mode_of (clear : bool) : Mode := if clear then Replace else AppendIfAbsent.

(** Modelled from the spec: [UDFRunner.apply] of the missing
    [fonduer.utils.udf] (section 4.4): with [clear] one call of the
    runner's own [clear] for the split, then every candidate through the
    worker.  [udf_apply] is the worker's [apply], [self_clear] the
    runner's [clear] with the keyword arguments it is called with. *)
Definition apply (udf_apply : Candidate -> bool -> Gen unit)
    (self_clear : Session -> Z -> Session)
    (xs : list Candidate) (split : Z) (clear : bool) (session : Session)
    : Outcome Session :=
  let session := if clear then self_clear session split else session in
  for_each (fun session x => drain (mode_of clear) (udf_apply x clear) session) xs session.

End UDFRunner.

(** ** [FAnnotator] *)

(** The keyword arguments [**kwargs] that reach the runner. *)
Record Kwargs := mkKwargs { kw_clear : bool }.

Module FAnnotator.
Section Annotator.

Variable get_all_feats : Candidate -> list (Z * string * Z).

(** [candidate_class.__tablename__]. *)
Definition __tablename__ (x : CandidateClass) : string := x.

(** [FAnnotator.clear].  [self] is [self.candidate_classes]; [query] tells
    which rows of the class the query selects, by their [id]. *)
Definition clear (self : list CandidateClass) (session : Session) (split : Z)
    (replace_key_set update_keys update_values : bool) : Session :=
  fold_left
    (fun session candidate_class =>
       let query := fun id : Z => true in
       let query :=
         if negb replace_key_set then
           let sub_query :=
             map cand_id (filter (fun c => cand_split c =? split) (candidates session)) in
           fun id => query id && existsb (Z.eqb id) sub_query
         else query in
       let session := delete_rows session candidate_class query in
       (* If we are creating a new key set, delete all old annotation keys *)
       if replace_key_set then delete_feature_keys session else session)
    self session.

(** [FAnnotator.clear_all]. *)
Definition clear_all (self : list CandidateClass) (session : Session) : Session :=
  delete_features session.

(** [FAnnotator.load_matrices]: the generator yields [x.__tablename__] for
    each candidate class. *)
Definition load_matrices (self : list CandidateClass) (session : Session) (split : Z)
    : list string :=
  map __tablename__ self.

(** [FAnnotator.apply]: the session after the call and the value returned,
    or the exception raised.  The runner calls
    [self.clear(session, split=split)], so [clear] runs with the defaults
    of its other parameters. *)
Definition apply (self : list CandidateClass) (session : Session) (split : Z)
    (replace_key_set update_keys update_values : bool) (kwargs : Kwargs)
    : Outcome (Session * list string) :=
  match
    for_each
      (fun session candidate_class =>
         let candidates :=
           filter (fun c => cand_split c =? split)
                  (query_class session candidate_class) in
         let cids_count := List.length candidates in
         if (cids_count =? 0)%nat then Returned session
         else
           (* Parallelize on Candidates *)
           UDFRunner.apply (FAnnotatorUDF.apply get_all_feats)
             (fun session split => clear self session split true false true)
             candidates split (kw_clear kwargs) session)
      self session
  with
  | Returned session => Returned (session, load_matrices self session split)
  | Raised e => Raised e
  end.

End Annotator.
End FAnnotator.

(** ** Auxiliary definitions for the statements *)

(** [Returns g a]: some run of [g] ends returning [a]. *)
Inductive Returns {A : Type} : Gen A -> A -> Prop :=
| Returns_here a : Returns (Return a) a
| Returns_yield y k a : Returns k a -> Returns (Yield y k) a
| Returns_ask q k b a : Returns (k b) a -> Returns (Ask q k) a.

(** [Run g l a]: some run of [g], whatever the session answers, yields
    the objects [l], in this order, and ends returning [a]. *)
Inductive Run {A : Type} : Gen A -> list Obj -> A -> Prop :=
| Run_return a : Run (Return a) [] a
| Run_yield y k l a : Run k l a -> Run (Yield y k) (y :: l) a
| Run_ask q k b l a : Run (k b) l a -> Run (Ask q k) l a.

(** A run of a generator against a session that nothing is written to
    meanwhile: the objects yielded and how the run ends. *)
Fixpoint snapshot_trace {A : Type} (session : Session) (g : Gen A) : list Obj :=
  match g with
  | Return _ => []
  | Yield y k => y :: snapshot_trace session k
  | Ask q k => snapshot_trace session (k (first session q))
  | Raise _ => []
  end.

Fixpoint snapshot_result {A : Type} (session : Session) (g : Gen A) : Outcome A :=
  match g with
  | Return a => Returned a
  | Yield y k => snapshot_result session k
  | Ask q k => snapshot_result session (k (first session q))
  | Raise e => Raised e
  end.

(** The triples that pass the test [feature == 0], and their keys, values
    and (key, value) pairs in the order of emission. *)
Definition nonzero (t : Z * string * Z) : bool := negb (snd t =? 0).
Definition key_names (feats : list (Z * string * Z)) : list string :=
  map (fun t => snd (fst t)) (filter nonzero feats).
Definition feature_values (feats : list (Z * string * Z)) : list Z :=
  map snd (filter nonzero feats).
Definition stored_pairs (feats : list (Z * string * Z)) : list (string * Z) :=
  map (fun t => (snd (fst t), snd t)) (filter nonzero feats).

(** The row of a candidate all of whose features are zero. *)
Definition empty_row (candidate : Candidate) : Feature :=
  {| candidate_id := cand_id candidate; keys := []; values := [] |}.

(** The row the worker builds for a candidate. *)
Definition row_of (get_all_feats : Candidate -> list (Z * string * Z))
    (candidate : Candidate) : Feature :=
  {| candidate_id := cand_id candidate;
     keys := key_names (get_all_feats candidate);
     values := feature_values (get_all_feats candidate) |}.

(** The candidates [FAnnotator.apply] loads for one class. *)
Definition work_set (session : Session) (candidate_class : CandidateClass) (split : Z)
    : list Candidate :=
  filter (fun c => cand_split c =? split) (query_class session candidate_class).

(** The ids of the sub-query of [clear]: [Candidate.id] of the rows of
    table [candidate] in the split. *)
Definition ids_in_split (session : Session) (split : Z) : list Z :=
  map cand_id (filter (fun c => cand_split c =? split) (candidates session)).

(** The ids the query of [clear] selects in the table of a class. *)
Definition selects (session : Session) (split : Z) (replace_key_set : bool) (id : Z)
    : bool :=
  if replace_key_set then true else existsb (Z.eqb id) (ids_in_split session split).

(** Whether [clear] selects a row of the table of a candidate class. *)
Definition cleared_row (self : list CandidateClass) (session : Session) (split : Z)
    (replace_key_set : bool) (r : ClassRow) : bool :=
  existsb (String.eqb (fst r)) self && selects session split replace_key_set (snd r).

(** [AnnotationKeyMixin.__repr__] of a key whose class is named
    [class_name]. *)
Definition FeatureKey_repr (class_name : string) (k : FeatureKey) : string :=
  String.append (String.append (String.append class_name " (") (key_name k)) ")".

(** Sessions used as concrete inputs. *)

(** Two candidates of class [span] in splits 0 and 1, one of class
    [figure] in split 0, one annotation row each, one key. *)
Definition session_three : Session :=
  {| candidates :=
       [ mkCandidate 1 "span" 0; mkCandidate 2 "span" 1; mkCandidate 3 "figure" 0 ];
     class_rows := [ ("span", 1); ("span", 2); ("figure", 3) ];
     feature_keys := [ mkFeatureKey 1 "a" 0 ];
     features :=
       [ mkFeature 1 ["a"] [1]; mkFeature 2 ["a"] [2]; mkFeature 3 ["a"] [5] ];
     key_seq := 2 |}.

(** A candidate for which key [k] comes out once with value 0 and once
    with value 1. *)
Definition feats_zero_then_one (candidate : Candidate) : list (Z * string * Z) :=
  [ (cand_id candidate, "k", 0); (cand_id candidate, "k", 1) ].

(** The functions of the end-to-end scenario: [("a",1),("b",0)] for
    candidate 1 and [("a",2)] for candidate 2. *)
Definition feats_scenario (candidate : Candidate) : list (Z * string * Z) :=
  if cand_id candidate =? 1 then [ (1, "a", 1); (1, "b", 0) ]
  else if cand_id candidate =? 2 then [ (2, "a", 2) ]
  else [].

(** Candidates 1 and 2 of class [span] in split 0, nothing stored yet. *)
Definition session_scenario : Session :=
  {| candidates := [ mkCandidate 1 "span" 0; mkCandidate 2 "span" 0 ];
     class_rows := [ ("span", 1); ("span", 2) ];
     feature_keys := [];
     features := [];
     key_seq := 1 |}.

(** The same candidates with the key and the rows the scenario expects
    after [apply]. *)
Definition session_scenario_stored : Session :=
  {| candidates := [ mkCandidate 1 "span" 0; mkCandidate 2 "span" 0 ];
     class_rows := [ ("span", 1); ("span", 2) ];
     feature_keys := [ mkFeatureKey 1 "a" 0 ];
     features := [ mkFeature 1 ["a"] [1]; mkFeature 2 ["a"] [2] ];
     key_seq := 2 |}.

(** A function that is zero everywhere. *)
Definition feats_all_zero (candidate : Candidate) : list (Z * string * Z) :=
  [ (cand_id candidate, "a", 0); (cand_id candidate, "b", 0) ].

(** * Properties *)

(** ** [clear] *)

(** One iteration of the loop of [clear]. *)
Lemma clear_cons (a : CandidateClass) (self : list CandidateClass) (session : Session)
    (sp : Z) (rks uk uv : bool) :
  FAnnotator.clear (a :: self) session sp rks uk uv =
  FAnnotator.clear self
    (if rks then delete_feature_keys (delete_rows session a (fun _ => true))
     else delete_rows session a (fun id => existsb (Z.eqb id) (ids_in_split session sp)))
    sp rks uk uv.
Proof. destruct rks; reflexivity. Qed.

Lemma filter_twice {A : Type} (p q : A -> bool) (rows : list A) :
  filter p (filter q rows) = filter (fun x => q x && p x) rows.
Proof.
  induction rows as [|x rows IH]; simpl; [reflexivity|].
  destruct (q x); simpl; [destruct (p x)|]; rewrite IH; reflexivity.
Qed.

(** What [clear] does for an annotator whose classes have tables of their
    own: it deletes the selected rows of those tables, and the keys when a
    new key set is asked for; tables [candidate] and [feature] stay. *)
Lemma clear_own_tables (self : list CandidateClass) :
  forall (session : Session) (sp : Z) (rks uk uv : bool),
  ~ In "candidate" self ->
  candidates (FAnnotator.clear self session sp rks uk uv) = candidates session
  /\ features (FAnnotator.clear self session sp rks uk uv) = features session
  /\ key_seq (FAnnotator.clear self session sp rks uk uv) = key_seq session
  /\ class_rows (FAnnotator.clear self session sp rks uk uv)
     = filter (fun r => negb (cleared_row self session sp rks r)) (class_rows session)
  /\ feature_keys (FAnnotator.clear self session sp rks uk uv)
     = (if rks then match self with [] => feature_keys session | _ :: _ => [] end
        else feature_keys session).
Proof.
  induction self as [|a self IH]; intros session sp rks uk uv Hno.
  - simpl. repeat split; try reflexivity.
    + symmetry. apply forallb_filter_id. apply forallb_forall. intros r _. reflexivity.
    + destruct rks; reflexivity.
  - assert (Ha : is_Candidate a = false).
    { unfold is_Candidate. apply String.eqb_neq. intros ->. apply Hno. left. reflexivity. }
    assert (Hself : ~ In "candidate" self) by (intros H; apply Hno; right; exact H).
    rewrite clear_cons.
    set (s1 := if rks then delete_feature_keys (delete_rows session a (fun _ => true))
               else delete_rows session a
                      (fun id => existsb (Z.eqb id) (ids_in_split session sp))).
    assert (Hc : candidates s1 = candidates session)
      by (subst s1; unfold delete_rows; rewrite Ha; destruct rks; reflexivity).
    assert (Hf : features s1 = features session)
      by (subst s1; unfold delete_rows; rewrite Ha; destruct rks; reflexivity).
    assert (Hq : key_seq s1 = key_seq session)
      by (subst s1; unfold delete_rows; rewrite Ha; destruct rks; reflexivity).
    assert (Hk : feature_keys s1 = if rks then [] else feature_keys session)
      by (subst s1; unfold delete_rows; rewrite Ha; destruct rks; reflexivity).
    assert (Hr : class_rows s1
                 = filter (fun r : ClassRow =>
                             negb (String.eqb (fst r) a && selects session sp rks (snd r)))
                          (class_rows session))
      by (subst s1; unfold delete_rows, selects; rewrite Ha; destruct rks; reflexivity).
    destruct (IH s1 sp rks uk uv Hself) as (IHc & IHf & IHq & IHr & IHk).
    split; [congruence|]. split; [congruence|]. split; [congruence|]. split.
    + rewrite IHr, Hr, filter_twice. apply filter_ext. intros r.
      unfold cleared_row, selects, ids_in_split. rewrite Hc. simpl.
      destruct (String.eqb (fst r) a); destruct (existsb (String.eqb (fst r)) self);
        destruct rks; simpl; try reflexivity;
        destruct (existsb _ _); reflexivity.
    + rewrite IHk, Hk. destruct rks; [destruct self|]; reflexivity.
Qed.

Lemma session_ext (s t : Session) :
  candidates s = candidates t -> class_rows s = class_rows t ->
  feature_keys s = feature_keys t -> features s = features t ->
  key_seq s = key_seq t -> s = t.
Proof. destruct s, t; simpl; intros; subst; reflexivity. Qed.

(** C1. After [clear(session, split=0, replace_key_set=False)] of an
    annotator for class [span], every annotation row is still there, the
    row of candidate 1 (class [span], split 0) among them: the DELETE is
    on the table of the candidate class, no annotation row is deleted. *)
Theorem clear_split_deletes_no_feature :
  In (mkCandidate 1 "span" 0) (query_class session_three "span")
  /\ features (FAnnotator.clear ["span"] session_three 0 false false true)
     = features session_three
  /\ In (mkFeature 1 ["a"] [1])
        (features (FAnnotator.clear ["span"] session_three 0 false false true)).
Proof. split; [|split]; simpl; auto. Qed.

(** C2. [clear] deletes rows of the table of the candidate class: after
    [clear(session, split=0, replace_key_set=False)] of an annotator for
    class [span] the [span] row of candidate 1 is gone and
    [session.query(span)] no longer returns the candidate, and with the
    default [replace_key_set=True] no [span] row is left; table
    [candidate] keeps its rows. *)
Theorem clear_deletes_class_rows :
  query_class session_three "span"
    = [ mkCandidate 1 "span" 0; mkCandidate 2 "span" 1 ]
  /\ class_rows (FAnnotator.clear ["span"] session_three 0 false false true)
     = [ ("span", 2); ("figure", 3) ]
  /\ query_class (FAnnotator.clear ["span"] session_three 0 false false true) "span"
     = [ mkCandidate 2 "span" 1 ]
  /\ class_rows (FAnnotator.clear ["span"] session_three 0 true false true)
     = [ ("figure", 3) ]
  /\ query_class (FAnnotator.clear ["span"] session_three 0 true false true) "span"
     = []
  /\ candidates (FAnnotator.clear ["span"] session_three 0 false false true)
     = candidates session_three
  /\ candidates (FAnnotator.clear ["span"] session_three 0 true false true)
     = candidates session_three.
Proof. repeat split. Qed.

(** C3. After [clear(session, split=1, replace_key_set=True)] of an
    annotator for class [span] the key rows are gone and all three
    annotation rows are still there, those of the [span] candidates
    included. *)
Theorem clear_replace_deletes_no_feature :
  feature_keys (FAnnotator.clear ["span"] session_three 1 true false true) = []
  /\ features (FAnnotator.clear ["span"] session_three 1 true false true)
     = [ mkFeature 1 ["a"] [1]; mkFeature 2 ["a"] [2]; mkFeature 3 ["a"] [5] ].
Proof. split; reflexivity. Qed.

(** X1. For an annotator whose classes have tables of their own,
    [clear(split, replace_key_set=False)] deletes exactly the rows of the
    tables of its classes whose [id] is the [id] of a row of table
    [candidate] in the split. *)
Theorem clear_split_deletes_class_rows (self : list CandidateClass) (session : Session)
    (sp : Z) (update_keys update_values : bool) (r : ClassRow) :
  ~ In "candidate" self ->
  In r (class_rows (FAnnotator.clear self session sp false update_keys update_values))
  <->
  In r (class_rows session)
  /\ ~ (In (fst r) self
        /\ exists c, In c (candidates session) /\ cand_id c = snd r /\ cand_split c = sp).
Proof.
  intros Hno.
  destruct (clear_own_tables self session sp false update_keys update_values Hno)
    as (_ & _ & _ & -> & _).
  rewrite filter_In, negb_true_iff.
  assert (Hsel : cleared_row self session sp false r = true <->
                 In (fst r) self
                 /\ exists c, In c (candidates session) /\ cand_id c = snd r
                              /\ cand_split c = sp).
  { unfold cleared_row, selects, ids_in_split.
    rewrite andb_true_iff, !existsb_exists. split.
    - intros [(t & Ht & Et) (i & Hi & Ei)].
      apply String.eqb_eq in Et. apply Z.eqb_eq in Ei. subst t i.
      split; [exact Ht|].
      apply in_map_iff in Hi as (c & Hid & Hc).
      apply filter_In in Hc as [Hc Hs]. apply Z.eqb_eq in Hs.
      exists c. auto.
    - intros [Ht (c & Hc & Hid & Hs)]. split.
      + exists (fst r). split; [exact Ht | apply String.eqb_refl].
      + exists (snd r). split; [|apply Z.eqb_refl].
        rewrite <- Hid. apply in_map, filter_In.
        split; [exact Hc | apply Z.eqb_eq; exact Hs]. }
  split.
  - intros [Hr Hf]. split; [exact Hr|]. intros H. apply Hsel in H. congruence.
  - intros [Hr Hn]. split; [exact Hr|]. apply not_true_is_false.
    intros H. apply Hn, Hsel, H.
Qed.

Lemma clear_split_deletes_class_rows_witness :
  In ("span", 2)
     (class_rows (FAnnotator.clear ["span"] session_three 0 false false true))
  <->
  In ("span", 2) (class_rows session_three)
  /\ ~ (In (fst ("span", 2)) ["span"]
        /\ exists c, In c (candidates session_three)
                     /\ cand_id c = snd ("span", 2) /\ cand_split c = 0).
Proof.
  apply (clear_split_deletes_class_rows ["span"] session_three 0 false true).
  simpl. intros [H|[]]. discriminate.
Defined.

(** X2. For an annotator whose classes have tables of their own,
    [clear(replace_key_set=True)] deletes exactly the rows of the tables
    of its classes, whatever the split. *)
Theorem clear_replace_deletes_class_rows (self : list CandidateClass) (session : Session)
    (sp : Z) (update_keys update_values : bool) (r : ClassRow) :
  ~ In "candidate" self ->
  In r (class_rows (FAnnotator.clear self session sp true update_keys update_values))
  <->
  In r (class_rows session) /\ ~ In (fst r) self.
Proof.
  intros Hno.
  destruct (clear_own_tables self session sp true update_keys update_values Hno)
    as (_ & _ & _ & -> & _).
  rewrite filter_In, negb_true_iff.
  unfold cleared_row, selects. rewrite andb_true_r.
  split.
  - intros [Hr Hf]. split; [exact Hr|]. intros Hin.
    assert (existsb (String.eqb (fst r)) self = true).
    { apply existsb_exists. exists (fst r). split; [exact Hin | apply String.eqb_refl]. }
    congruence.
  - intros [Hr Hn]. split; [exact Hr|]. apply not_true_is_false. intros H.
    apply existsb_exists in H as (t & Ht & Et). apply String.eqb_eq in Et.
    subst t. exact (Hn Ht).
Qed.

Lemma clear_replace_deletes_class_rows_witness :
  In ("figure", 3)
     (class_rows (FAnnotator.clear ["span"] session_three 0 true false true))
  <->
  In ("figure", 3) (class_rows session_three) /\ ~ In (fst ("figure", 3)) ["span"].
Proof.
  apply (clear_replace_deletes_class_rows ["span"] session_three 0 false true).
  simpl. intros [H|[]]. discriminate.
Defined.

(** X3. [clear(replace_key_set=False)] leaves the key table as it is: the
    same key rows in the same order, and the same next key id. *)
Theorem clear_split_keeps_keys (self : list CandidateClass) :
  forall (session : Session) (split : Z) (update_keys update_values : bool),
  feature_keys (FAnnotator.clear self session split false update_keys update_values)
    = feature_keys session
  /\ key_seq (FAnnotator.clear self session split false update_keys update_values)
    = key_seq session.
Proof.
  induction self as [|a self IH]; intros session sp uk uv.
  - split; reflexivity.
  - rewrite clear_cons.
    destruct (IH (delete_rows session a
                    (fun id => existsb (Z.eqb id) (ids_in_split session sp))) sp uk uv)
      as [-> ->].
    unfold delete_rows. destruct (is_Candidate a); split; reflexivity.
Qed.

(** X5. For an annotator whose classes have tables of their own, [clear]
    is idempotent: a second call with the same split and the same
    [replace_key_set] finds nothing left to delete. *)
Theorem clear_twice (self : list CandidateClass) (session : Session) (sp : Z)
    (replace_key_set update_keys update_values update_keys' update_values' : bool) :
  ~ In "candidate" self ->
  FAnnotator.clear self
    (FAnnotator.clear self session sp replace_key_set update_keys update_values)
    sp replace_key_set update_keys' update_values'
  = FAnnotator.clear self session sp replace_key_set update_keys update_values.
Proof.
  intros Hno.
  set (s1 := FAnnotator.clear self session sp replace_key_set update_keys update_values).
  destruct (clear_own_tables self session sp replace_key_set update_keys update_values Hno)
    as (Hc & Hf & Hq & Hr & Hk).
  destruct (clear_own_tables self s1 sp replace_key_set update_keys' update_values' Hno)
    as (Hc' & Hf' & Hq' & Hr' & Hk').
  fold s1 in Hc, Hf, Hq, Hr, Hk.
  apply session_ext; try assumption.
  - rewrite Hr', Hr, filter_twice. apply filter_ext. intros r.
    unfold cleared_row, selects, ids_in_split. rewrite Hc.
    destruct (negb _); reflexivity.
  - rewrite Hk', Hk. destruct replace_key_set; [destruct self|]; reflexivity.
Qed.

Lemma clear_twice_witness :
  FAnnotator.clear ["span"]
    (FAnnotator.clear ["span"] session_three 0 false false true) 0 false false true
  = FAnnotator.clear ["span"] session_three 0 false false true.
Proof.
  apply (clear_twice ["span"] session_three 0 false false true false true).
  simpl. intros [H|[]]. discriminate.
Defined.

(** X13. For an annotator whose classes have tables of their own, [clear]
    deletes no row of table [candidate] and no annotation row, with either
    value of [replace_key_set]. *)
Theorem clear_keeps_candidates_and_features (self : list CandidateClass)
    (session : Session) (sp : Z) (replace_key_set update_keys update_values : bool) :
  ~ In "candidate" self ->
  candidates (FAnnotator.clear self session sp replace_key_set update_keys update_values)
    = candidates session
  /\ features (FAnnotator.clear self session sp replace_key_set update_keys update_values)
    = features session.
Proof.
  intros Hno.
  destruct (clear_own_tables self session sp replace_key_set update_keys update_values Hno)
    as (Hc & Hf & _).
  split; assumption.
Qed.

Lemma clear_keeps_candidates_and_features_witness :
  candidates (FAnnotator.clear ["span"; "figure"] session_three 0 true false true)
    = candidates session_three
  /\ features (FAnnotator.clear ["span"; "figure"] session_three 0 true false true)
    = features session_three.
Proof.
  apply (clear_keeps_candidates_and_features ["span"; "figure"] session_three 0
           true false true).
  simpl. intros [H|[H|[]]]; discriminate.
Defined.

(** ** The worker *)

Lemma Emits_bind {A B : Type} (g : Gen A) (f : A -> Gen B) (y : Obj) :
  Emits (bind g f) y -> Emits g y \/ exists a, Returns g a /\ Emits (f a) y.
Proof.
  induction g as [a|y' k IH|q k IH|e]; simpl; intros H.
  - right. exists a. split; [constructor | assumption].
  - inversion H as [|y0 y1 k0 Hk|]; subst.
    + left; constructor.
    + destruct (IH Hk) as [He|(a & Hr & He)].
      * left; constructor; assumption.
      * right; exists a; split; [constructor|]; assumption.
  - inversion H as [| |q0 k0 b y0 Hk]; subst.
    destruct (IH b Hk) as [He|(a & Hr & He)];
      [ left; econstructor; eassumption
      | right; exists a; split; [econstructor|]; eassumption ].
  - inversion H.
Qed.

Lemma key_names_cons (t : Z * string * Z) (feats : list (Z * string * Z)) :
  key_names (t :: feats) =
  if snd t =? 0 then key_names feats else snd (fst t) :: key_names feats.
Proof. unfold key_names, nonzero; simpl. destruct (snd t =? 0); reflexivity. Qed.

Lemma feature_values_cons (t : Z * string * Z) (feats : list (Z * string * Z)) :
  feature_values (t :: feats) =
  if snd t =? 0 then feature_values feats else snd t :: feature_values feats.
Proof. unfold feature_values, nonzero; simpl. destruct (snd t =? 0); reflexivity. Qed.

(** Whatever the session answers, the loop returns the keys and values of
    the non-zero triples, appended in order to what it started with. *)
Lemma feats_loop_Returns (feats : list (Z * string * Z)) :
  forall keys values kv,
  Returns (FAnnotatorUDF.feats_loop feats keys values) kv ->
  kv = (keys ++ key_names feats, values ++ feature_values feats).
Proof.
  induction feats as [|[[cid key_name] feature] feats IH]; intros ks vs kv H.
  - simpl in H. inversion H; subst.
    unfold key_names, feature_values; simpl. rewrite !app_nil_r. reflexivity.
  - rewrite key_names_cons, feature_values_cons. simpl in *.
    destruct (feature =? 0).
    + apply IH; assumption.
    + inversion H as [| |q k b a Hk]; subst.
      destruct b; simpl in Hk.
      * apply IH in Hk. rewrite <- !app_assoc in Hk. exact Hk.
      * inversion Hk as [|y0 k0 a0 Hr|]; subst.
        apply IH in Hr. rewrite <- !app_assoc in Hr. exact Hr.
Qed.

(** The loop yields keys only, and only keys of non-zero triples. *)
Lemma feats_loop_Emits (feats : list (Z * string * Z)) :
  forall keys values y,
  Emits (FAnnotatorUDF.feats_loop feats keys values) y ->
  exists name, y = NewFeatureKey name /\ In name (key_names feats).
Proof.
  induction feats as [|[[cid key_name] feature] feats IH]; intros ks vs y H.
  - simpl in H. inversion H.
  - rewrite key_names_cons. simpl in *.
    destruct (feature =? 0).
    + eapply IH; eassumption.
    + inversion H as [| |q k b y0 Hk]; subst.
      destruct b; simpl in Hk.
      * destruct (IH _ _ _ Hk) as (name & -> & Hin).
        exists name; split; [reflexivity | right; assumption].
      * inversion Hk as [|y0 y1 k0 He|]; subst.
        -- exists key_name; split; [reflexivity | left; reflexivity].
        -- destruct (IH _ _ _ He) as (name & -> & Hin).
           exists name; split; [reflexivity | right; assumption].
Qed.

(** With [clear] off the worker is the loop followed by the exception of
    [Feature.id]. *)
Lemma apply_without_clear_unfold (get_all_feats : Candidate -> list (Z * string * Z))
    (candidate : Candidate) :
  FAnnotatorUDF.apply get_all_feats candidate false
  = bind (FAnnotatorUDF.feats_loop (get_all_feats candidate) [] [])
         (fun _ => Raise AttributeError).
Proof. reflexivity. Qed.

(** Every row the worker yields is the row of the candidate built from the
    non-zero triples. *)
Lemma apply_Emits_row (get_all_feats : Candidate -> list (Z * string * Z))
    (candidate : Candidate) (clear : bool) (f : Feature) :
  Emits (FAnnotatorUDF.apply get_all_feats candidate clear) (NewFeature f) ->
  f = {| candidate_id := cand_id candidate;
         keys := key_names (get_all_feats candidate);
         values := feature_values (get_all_feats candidate) |}.
Proof.
  destruct clear.
  - unfold FAnnotatorUDF.apply. intros H.
    apply Emits_bind in H as [H|(kv & Hr & H)].
    + apply feats_loop_Emits in H as (name & Hy & _). discriminate.
    + apply feats_loop_Returns in Hr. subst kv. simpl in H.
      inversion H as [|y0 y1 k0 He|]; subst; [reflexivity | inversion He].
  - rewrite apply_without_clear_unfold. intros H.
    apply Emits_bind in H as [H|(kv & _ & H)].
    + apply feats_loop_Emits in H as (name & Hy & _). discriminate.
    + inversion H.
Qed.

(** The keys the worker yields are keys of the row it builds. *)
Lemma apply_Emits_key (get_all_feats : Candidate -> list (Z * string * Z))
    (candidate : Candidate) (clear : bool) (name : string) :
  Emits (FAnnotatorUDF.apply get_all_feats candidate clear) (NewFeatureKey name) ->
  In name (key_names (get_all_feats candidate)).
Proof.
  assert (Hloop : forall ks vs,
            Emits (FAnnotatorUDF.feats_loop (get_all_feats candidate) ks vs)
                  (NewFeatureKey name) ->
            In name (key_names (get_all_feats candidate))).
  { intros ks vs H. apply feats_loop_Emits in H as (n & Hn & Hin).
    inversion Hn; subst n. exact Hin. }
  destruct clear.
  - unfold FAnnotatorUDF.apply. intros H.
    apply Emits_bind in H as [H|(kv & _ & H)]; [exact (Hloop _ _ H)|].
    exfalso. simpl in H.
    inversion H as [|y0 y1 k0 He|]; subst. inversion He.
  - rewrite apply_without_clear_unfold. intros H.
    apply Emits_bind in H as [H|(kv & _ & H)]; [exact (Hloop _ _ H) | inversion H].
Qed.

Lemma combine_key_names_values (feats : list (Z * string * Z)) :
  combine (key_names feats) (feature_values feats) = stored_pairs feats.
Proof.
  unfold key_names, feature_values, stored_pairs.
  induction (filter nonzero feats) as [|t l IH]; simpl; [reflexivity|].
  rewrite IH; reflexivity.
Qed.

Lemma length_key_names_values (feats : list (Z * string * Z)) :
  List.length (key_names feats) = List.length (feature_values feats).
Proof. unfold key_names, feature_values. rewrite !length_map. reflexivity. Qed.

Lemma In_key_names (feats : list (Z * string * Z)) (key : string) :
  In key (key_names feats) <->
  exists cid value, In (cid, key, value) feats /\ value <> 0.
Proof.
  unfold key_names. rewrite in_map_iff. split.
  - intros ([[cid k] v] & Hk & Hin). simpl in Hk; subst k.
    apply filter_In in Hin as [Hin Hnz].
    exists cid, v. split; [assumption|].
    unfold nonzero in Hnz; simpl in Hnz.
    apply negb_true_iff, Z.eqb_neq in Hnz. assumption.
  - intros (cid & v & Hin & Hv).
    exists (cid, key, v). split; [reflexivity|].
    apply filter_In. split; [assumption|].
    unfold nonzero; simpl. apply negb_true_iff, Z.eqb_neq. assumption.
Qed.

Lemma In_feature_values (feats : list (Z * string * Z)) (value : Z) :
  In value (feature_values feats) -> value <> 0.
Proof.
  unfold feature_values. rewrite in_map_iff.
  intros ([[cid k] v] & Hv & Hin). simpl in Hv; subst v.
  apply filter_In in Hin as [_ Hnz].
  unfold nonzero in Hnz; simpl in Hnz.
  apply negb_true_iff, Z.eqb_neq in Hnz. assumption.
Qed.

(** C8. Every annotation row the worker yields has as many keys as values,
    and pairing [keys[i]] with [values[i]] gives exactly the (key, value)
    pairs the functions emitted for the candidate with a non-zero value, in
    the order of emission. *)
Theorem emitted_row_is_paired (get_all_feats : Candidate -> list (Z * string * Z))
    (candidate : Candidate) (clear : bool) (f : Feature) :
  Emits (FAnnotatorUDF.apply get_all_feats candidate clear) (NewFeature f) ->
  List.length (keys f) = List.length (values f)
  /\ combine (keys f) (values f) = stored_pairs (get_all_feats candidate).
Proof.
  intros H. apply apply_Emits_row in H. subst f. simpl.
  split; [apply length_key_names_values | apply combine_key_names_values].
Qed.

Lemma emitted_row_is_paired_witness :
  List.length (keys (mkFeature 1 ["a"] [1])) = List.length (values (mkFeature 1 ["a"] [1]))
  /\ combine (keys (mkFeature 1 ["a"] [1])) (values (mkFeature 1 ["a"] [1]))
     = stored_pairs (feats_scenario (mkCandidate 1 "span" 0)).
Proof.
  apply (emitted_row_is_paired feats_scenario (mkCandidate 1 "span" 0) true).
  apply Emits_ask with (b := true). simpl. apply Emits_here.
Defined.

(** C7, as stated, fails: when a key comes out with value 0 and again with
    value 1, the row the worker yields carries that key. *)
Lemma zero_valued_key_is_stored :
  In (1, "k", 0) (feats_zero_then_one (mkCandidate 1 "span" 0))
  /\ Emits (FAnnotatorUDF.apply feats_zero_then_one (mkCandidate 1 "span" 0) true)
           (NewFeature (mkFeature 1 ["k"] [1]))
  /\ UDFRunner.emitted UDFRunner.Replace
       (FAnnotatorUDF.apply feats_zero_then_one (mkCandidate 1 "span" 0) true)
       session_scenario
     = [ NewFeatureKey "k"; NewFeature (mkFeature 1 ["k"] [1]) ]
  /\ In "k" (keys (mkFeature 1 ["k"] [1]))
  /\ ~ (forall f key,
          Emits (FAnnotatorUDF.apply feats_zero_then_one (mkCandidate 1 "span" 0) true)
                (NewFeature f) ->
          In (1, key, 0) (feats_zero_then_one (mkCandidate 1 "span" 0)) ->
          ~ In key (keys f)).
Proof.
  assert (He : Emits (FAnnotatorUDF.apply feats_zero_then_one
                        (mkCandidate 1 "span" 0) true)
                     (NewFeature (mkFeature 1 ["k"] [1]))).
  { apply Emits_ask with (b := true). simpl. apply Emits_here. }
  repeat split; simpl; auto.
  intros H. apply (H (mkFeature 1 ["k"] [1]) "k" He); simpl; auto.
Qed.

(** C7, amended. A pair (key, 0) the functions emit for a candidate is never
    stored: in every row the worker yields for the candidate no value is 0,
    the pair (key, 0) is no (keys[i], values[i]), and the key is among the
    keys exactly when the functions also emitted it with a non-zero value. *)
Theorem zero_valued_pair_not_stored (get_all_feats : Candidate -> list (Z * string * Z))
    (candidate : Candidate) (clear : bool) (f : Feature) (cid : Z) (key : string) :
  Emits (FAnnotatorUDF.apply get_all_feats candidate clear) (NewFeature f) ->
  In (cid, key, 0) (get_all_feats candidate) ->
  ~ In 0 (values f)
  /\ ~ In (key, 0) (combine (keys f) (values f))
  /\ (In key (keys f) <->
      exists cid' value, In (cid', key, value) (get_all_feats candidate) /\ value <> 0).
Proof.
  intros H _. apply apply_Emits_row in H. subst f. simpl.
  assert (Hz : ~ In 0 (feature_values (get_all_feats candidate))).
  { intros Hin. apply In_feature_values in Hin. apply Hin; reflexivity. }
  split; [exact Hz | split].
  - intros Hin. apply in_combine_r in Hin. exact (Hz Hin).
  - apply In_key_names.
Qed.

Lemma zero_valued_pair_not_stored_witness :
  ~ In 0 (values (mkFeature 1 ["a"] [1]))
  /\ ~ In ("b", 0) (combine (keys (mkFeature 1 ["a"] [1])) (values (mkFeature 1 ["a"] [1])))
  /\ (In "b" (keys (mkFeature 1 ["a"] [1])) <->
      exists cid' value,
        In (cid', "b", value) (feats_scenario (mkCandidate 1 "span" 0)) /\ value <> 0).
Proof.
  apply (zero_valued_pair_not_stored feats_scenario (mkCandidate 1 "span" 0) true
           (mkFeature 1 ["a"] [1]) 1 "b").
  - apply Emits_ask with (b := true). simpl. apply Emits_here.
  - simpl. right; left; reflexivity.
Defined.

(** ** The check for an existing row *)

(** A generator that raises once the loop is over raises in every drain. *)
Lemma drain_then_raise {A B : Type} (mode : UDFRunner.Mode) (g : Gen A) (e : Exception) :
  forall session,
  UDFRunner.drain mode (bind g (fun _ => @Raise B e)) session = Raised e.
Proof.
  induction g as [a|y k IH|q k IH|e']; intros session; simpl; auto.
  destruct e, e'. reflexivity.
Qed.

(** C4. With [clear] off the worker raises [AttributeError] at
    [select([Feature.id])], once its loop is over: whatever the candidate
    and the session, the drain of the worker ends with the exception, no
    run of the worker yields an annotation row, and in the end-to-end
    scenario [FAnnotator.apply] with [clear] off raises; there is no first
    run whose rows a second one could find. *)
Theorem apply_without_clear_raises :
  (forall (get_all_feats : Candidate -> list (Z * string * Z)) (candidate : Candidate)
          (mode : UDFRunner.Mode) (session : Session),
     UDFRunner.drain mode (FAnnotatorUDF.apply get_all_feats candidate false) session
     = Raised AttributeError)
  /\ (forall (get_all_feats : Candidate -> list (Z * string * Z)) (candidate : Candidate)
             (f : Feature),
        ~ Emits (FAnnotatorUDF.apply get_all_feats candidate false) (NewFeature f))
  /\ FAnnotator.apply feats_scenario ["span"] session_scenario 0 true false true
       (mkKwargs false)
     = Raised AttributeError.
Proof.
  split; [|split].
  - intros gaf c mode s. rewrite apply_without_clear_unfold. apply drain_then_raise.
  - intros gaf c f H. rewrite apply_without_clear_unfold in H.
    apply Emits_bind in H as [H|(kv & _ & H)].
    + apply feats_loop_Emits in H as (name & Hy & _). discriminate.
    + inversion H.
  - reflexivity.
Qed.

(** C9. For a candidate all of whose features are zero the worker, with
    [clear] on, yields the row with empty keys and values and nothing
    else; with [clear] off it raises [AttributeError] at
    [select([Feature.id])] before any [yield], so that no row is stored on
    a first run. *)
Theorem all_zero_candidate_row_only_with_clear :
  forall candidate : Candidate,
  FAnnotatorUDF.apply feats_all_zero candidate true
    = Yield (NewFeature (empty_row candidate)) (Return tt)
  /\ FAnnotatorUDF.apply feats_all_zero candidate false = Raise AttributeError
  /\ (forall mode session,
        UDFRunner.drain mode (FAnnotatorUDF.apply feats_all_zero candidate false) session
        = Raised AttributeError).
Proof.
  intros candidate. repeat split.
Qed.

(** ** [FAnnotator.apply] and [load_matrices] *)

(** C10. [FAnnotator.apply] never reads [replace_key_set], [update_keys] and
    [update_values]: two calls that differ in them only end in the same
    session and return the same value. *)
Theorem apply_ignores_key_set_arguments
    (get_all_feats : Candidate -> list (Z * string * Z)) (self : list CandidateClass)
    (session : Session) (split : Z) (kwargs : Kwargs)
    (replace_key_set update_keys update_values : bool)
    (replace_key_set' update_keys' update_values' : bool) :
  FAnnotator.apply get_all_feats self session split
    replace_key_set update_keys update_values kwargs
  = FAnnotator.apply get_all_feats self session split
      replace_key_set' update_keys' update_values' kwargs.
Proof. reflexivity. Qed.

(** C6. [load_matrices] yields the table names of the candidate classes,
    whatever the session and the split hold; on the store of the
    end-to-end scenario, with key [a] and the rows of candidates 1 and 2,
    it yields the one string [span], no matrix of 2 rows and 1 column. *)
Theorem load_matrices_yields_table_names :
  (forall (self : list CandidateClass) (session : Session) (split : Z),
     FAnnotator.load_matrices self session split = map FAnnotator.__tablename__ self)
  /\ feature_keys session_scenario_stored = [ mkFeatureKey 1 "a" 0 ]
  /\ features session_scenario_stored
     = [ mkFeature 1 ["a"] [1]; mkFeature 2 ["a"] [2] ]
  /\ FAnnotator.load_matrices ["span"] session_scenario_stored 0 = [ "span" ].
Proof. repeat split. Qed.

(** X6. When no class of the annotator has a candidate in the split,
    [FAnnotator.apply] changes nothing, whatever the keyword arguments: the
    runner is not called, so even with [clear] nothing is cleared. *)
Theorem apply_on_empty_split (get_all_feats : Candidate -> list (Z * string * Z))
    (self : list CandidateClass) (session : Session) (sp : Z)
    (replace_key_set update_keys update_values : bool) (kwargs : Kwargs) :
  (forall a, In a self -> work_set session a sp = []) ->
  FAnnotator.apply get_all_feats self session sp
    replace_key_set update_keys update_values kwargs
  = Returned (session, map FAnnotator.__tablename__ self).
Proof.
  intros Hempty. unfold FAnnotator.apply, FAnnotator.load_matrices.
  match goal with
  | |- context [for_each ?F self session] =>
      assert (H : forall l, (forall a, In a l -> work_set session a sp = []) ->
                            for_each F l session = Returned session)
  end.
  { induction l as [|a l IH]; intros Hl; [reflexivity|].
    simpl. fold (work_set session a sp).
    rewrite (Hl a (or_introl eq_refl)). simpl.
    apply IH. intros b Hb. apply Hl. right. exact Hb. }
  rewrite (H self Hempty). reflexivity.
Qed.

Lemma apply_on_empty_split_witness :
  FAnnotator.apply feats_scenario ["span"] session_scenario 7 true false true
    (mkKwargs true)
  = Returned (session_scenario, map FAnnotator.__tablename__ ["span"]).
Proof.
  apply (apply_on_empty_split feats_scenario ["span"] session_scenario 7
           true false true (mkKwargs true)).
  intros a [<-|[]]. reflexivity.
Defined.

(** ** The worker, on its own *)

(** Triples whose feature is zero leave no mark on the loop. *)
Lemma feats_loop_skips_zero (feats : list (Z * string * Z)) :
  forall ks vs,
  FAnnotatorUDF.feats_loop feats ks vs
  = FAnnotatorUDF.feats_loop (filter nonzero feats) ks vs.
Proof.
  induction feats as [|[[cid name] feature] feats IH]; intros ks vs; [reflexivity|].
  simpl. unfold nonzero at 1. simpl.
  destruct (feature =? 0) eqn:E; simpl; [apply IH|].
  rewrite E. rewrite (IH (ks ++ [name]) (vs ++ [feature])). reflexivity.
Qed.

(** On triples that all pass the test, the loop reads the keys and the
    values only. *)
Lemma feats_loop_reads_pairs (l : list (Z * string * Z)) :
  forall l' ks vs,
  (forall t, In t l -> nonzero t = true) ->
  (forall t, In t l' -> nonzero t = true) ->
  map (fun t => (snd (fst t), snd t)) l = map (fun t => (snd (fst t), snd t)) l' ->
  FAnnotatorUDF.feats_loop l ks vs = FAnnotatorUDF.feats_loop l' ks vs.
Proof.
  induction l as [|[[cid name] feature] l IH];
    intros [|[[cid' name'] feature'] l'] ks vs Hl Hl' Hmap;
    try discriminate; [reflexivity|].
  simpl in Hmap. inversion Hmap; subst name' feature'.
  pose proof (Hl _ (or_introl eq_refl)) as Hnz.
  unfold nonzero in Hnz. simpl in Hnz. apply negb_true_iff in Hnz.
  simpl. rewrite Hnz.
  rewrite (IH l' (ks ++ [name]) (vs ++ [feature])); [reflexivity| | |assumption].
  - intros t Ht. apply Hl. right. exact Ht.
  - intros t Ht. apply Hl'. right. exact Ht.
Qed.

(** X7. The worker reads [get_all_feats(candidate)] through its non-zero
    (key, value) pairs only: two feature functions that give a candidate
    the same non-zero pairs in the same order, whatever their zero-valued
    triples and their [cid] components, make the worker ask the same
    queries and yield the same objects. *)
Theorem worker_reads_nonzero_pairs
    (get_all_feats get_all_feats' : Candidate -> list (Z * string * Z))
    (candidate : Candidate) (clear : bool) :
  stored_pairs (get_all_feats candidate) = stored_pairs (get_all_feats' candidate) ->
  FAnnotatorUDF.apply get_all_feats candidate clear
  = FAnnotatorUDF.apply get_all_feats' candidate clear.
Proof.
  unfold stored_pairs, FAnnotatorUDF.apply. intros Hp.
  rewrite (feats_loop_skips_zero (get_all_feats candidate)).
  rewrite (feats_loop_skips_zero (get_all_feats' candidate)).
  rewrite (feats_loop_reads_pairs (filter nonzero (get_all_feats candidate))
             (filter nonzero (get_all_feats' candidate)) [] []); [reflexivity| | |exact Hp].
  - intros t Ht. apply filter_In in Ht. tauto.
  - intros t Ht. apply filter_In in Ht. tauto.
Qed.

Lemma worker_reads_nonzero_pairs_witness :
  FAnnotatorUDF.apply feats_scenario (mkCandidate 1 "span" 0) false
  = FAnnotatorUDF.apply (fun _ => [ (9, "c", 0); (8, "a", 1) ]) (mkCandidate 1 "span" 0) false.
Proof.
  apply (worker_reads_nonzero_pairs feats_scenario
           (fun _ => [ (9, "c", 0); (8, "a", 1) ]) (mkCandidate 1 "span" 0) false).
  reflexivity.
Defined.

(** X8. The worker yields a key only for a feature that is not zero: every
    [FeatureKey] it yields for a candidate carries the key name of a triple
    of the candidate whose feature is not 0. *)
Theorem yielded_key_has_nonzero_feature
    (get_all_feats : Candidate -> list (Z * string * Z))
    (candidate : Candidate) (clear : bool) (name : string) :
  Emits (FAnnotatorUDF.apply get_all_feats candidate clear) (NewFeatureKey name) ->
  exists cid feature, In (cid, name, feature) (get_all_feats candidate) /\ feature <> 0.
Proof.
  intros H. apply In_key_names. apply (apply_Emits_key _ _ _ _ H).
Qed.

Lemma yielded_key_has_nonzero_feature_witness :
  exists cid feature,
    In (cid, "a", feature) (feats_scenario (mkCandidate 1 "span" 0)) /\ feature <> 0.
Proof.
  apply (yielded_key_has_nonzero_feature feats_scenario (mkCandidate 1 "span" 0) true "a").
  apply Emits_ask with (b := false). simpl. apply Emits_here.
Defined.

Lemma Run_bind {A B : Type} (g : Gen A) (f : A -> Gen B) :
  forall l b,
  Run (bind g f) l b ->
  exists l1 l2 a, Run g l1 a /\ Run (f a) l2 b /\ l = l1 ++ l2.
Proof.
  induction g as [a|y k IH|q k IH|e]; simpl; intros l b H.
  - exists [], l, a. split; [constructor | split; [exact H | reflexivity]].
  - inversion H as [|y0 k0 l0 b0 Hk|]; subst.
    destruct (IH _ _ Hk) as (l1 & l2 & a & H1 & H2 & ->).
    exists (y :: l1), l2, a. split; [constructor; exact H1 | split; [exact H2 | reflexivity]].
  - inversion H as [| |q0 k0 c l0 b0 Hk]; subst.
    destruct (IH c _ _ Hk) as (l1 & l2 & a & H1 & H2 & ->).
    exists l1, l2, a. split; [econstructor; exact H1 | split; [exact H2 | reflexivity]].
  - inversion H.
Qed.

Lemma feats_loop_Run (feats : list (Z * string * Z)) :
  forall ks vs l kv,
  Run (FAnnotatorUDF.feats_loop feats ks vs) l kv ->
  kv = (ks ++ key_names feats, vs ++ feature_values feats)
  /\ exists names, l = map NewFeatureKey names /\ incl names (key_names feats).
Proof.
  induction feats as [|[[cid name] feature] feats IH]; intros ks vs l kv H.
  - simpl in H. inversion H; subst.
    unfold key_names, feature_values; simpl. rewrite !app_nil_r.
    split; [reflexivity|]. exists []. split; [reflexivity | intros n []].
  - rewrite key_names_cons, feature_values_cons. simpl in *.
    destruct (feature =? 0); [apply IH; exact H|].
    inversion H as [| |q k b l0 a Hk]; subst.
    destruct b; simpl in Hk.
    + apply IH in Hk as (-> & names & -> & Hincl).
      rewrite <- !app_assoc. split; [reflexivity|].
      exists names. split; [reflexivity|].
      intros n Hn. right. apply Hincl, Hn.
    + inversion Hk as [|y0 k0 l1 a0 Hk'|]; subst.
      apply IH in Hk' as (-> & names & -> & Hincl).
      rewrite <- !app_assoc. split; [reflexivity|].
      exists (name :: names). split; [reflexivity|].
      intros n [<-|Hn]; [left; reflexivity | right; apply Hincl, Hn].
Qed.

(** X9. Whatever the session answers, a run of the worker yields keys
    first, each the key of a non-zero feature of the candidate, and then at
    most one annotation row, the row of the candidate, as its last object;
    with [clear] on the row is always yielded. *)
Theorem worker_yields_keys_then_row
    (get_all_feats : Candidate -> list (Z * string * Z))
    (candidate : Candidate) (clear : bool) (l : list Obj) :
  Run (FAnnotatorUDF.apply get_all_feats candidate clear) l tt ->
  exists names rows,
    l = map NewFeatureKey names ++ rows
    /\ incl names (key_names (get_all_feats candidate))
    /\ (rows = [ NewFeature (row_of get_all_feats candidate) ]
        \/ (clear = false /\ rows = [])).
Proof.
  destruct clear.
  - unfold FAnnotatorUDF.apply. intros H.
    apply Run_bind in H as (l1 & l2 & kv & H1 & H2 & ->).
    apply feats_loop_Run in H1 as (-> & names & -> & Hincl).
    exists names, l2. split; [reflexivity | split; [exact Hincl|]].
    simpl in H2. left.
    inversion H2 as [|y0 k0 l0 a0 Hk|]; subst.
    inversion Hk; subst. reflexivity.
  - rewrite apply_without_clear_unfold. intros H.
    apply Run_bind in H as (l1 & l2 & kv & _ & H2 & _). inversion H2.
Qed.

Lemma worker_yields_keys_then_row_witness :
  exists names rows,
    [ NewFeatureKey "a"; NewFeature (mkFeature 1 ["a"] [1]) ]
      = map NewFeatureKey names ++ rows
    /\ incl names (key_names (feats_scenario (mkCandidate 1 "span" 0)))
    /\ (rows = [ NewFeature (row_of feats_scenario (mkCandidate 1 "span" 0)) ]
        \/ (true = false /\ rows = [])).
Proof.
  apply (worker_yields_keys_then_row feats_scenario (mkCandidate 1 "span" 0) true).
  apply Run_ask with (b := false). simpl.
  apply Run_yield. apply Run_yield. apply Run_return.
Defined.

Lemma snapshot_trace_bind {A B : Type} (session : Session) (g : Gen A) (f : A -> Gen B) :
  snapshot_trace session (bind g f)
  = snapshot_trace session g
    ++ match snapshot_result session g with
       | Returned a => snapshot_trace session (f a)
       | Raised _ => []
       end.
Proof.
  induction g as [a|y k IH|q k IH|e]; simpl; auto.
  rewrite IH. reflexivity.
Qed.

Lemma snapshot_result_bind {A B : Type} (session : Session) (g : Gen A) (f : A -> Gen B) :
  snapshot_result session (bind g f)
  = match snapshot_result session g with
    | Returned a => snapshot_result session (f a)
    | Raised e => Raised e
    end.
Proof.
  induction g as [a|y k IH|q k IH|e]; simpl; auto.
Qed.

Lemma snapshot_feats_loop (session : Session) (feats : list (Z * string * Z)) :
  forall ks vs,
  snapshot_result session (FAnnotatorUDF.feats_loop feats ks vs)
    = Returned (ks ++ key_names feats, vs ++ feature_values feats)
  /\ snapshot_trace session (FAnnotatorUDF.feats_loop feats ks vs)
    = map NewFeatureKey
        (filter (fun name => negb (first session (FeatureKey_by_name name)))
                (key_names feats)).
Proof.
  induction feats as [|[[cid name] feature] feats IH]; intros ks vs.
  - unfold key_names, feature_values; simpl. rewrite !app_nil_r. split; reflexivity.
  - rewrite key_names_cons, feature_values_cons. simpl.
    destruct (feature =? 0); [apply IH|].
    simpl.
    destruct (IH (ks ++ [name]) (vs ++ [feature])) as [Hr Ht].
    destruct (existsb (fun k => String.eqb (key_name k) name) (feature_keys session));
      simpl; rewrite Hr, Ht, <- !app_assoc; split; reflexivity.
Qed.

(** X10. Against a session that does not see what the worker yields, the
    worker yields one key for every non-zero feature whose key name has no
    key row, in the order of the features and once per occurrence of a
    name; with [clear] on it then yields the row of the candidate and
    returns, with [clear] off it yields no row and ends with
    [AttributeError]. *)
Theorem worker_against_snapshot
    (get_all_feats : Candidate -> list (Z * string * Z))
    (session : Session) (candidate : Candidate) (clear : bool) :
  snapshot_trace session (FAnnotatorUDF.apply get_all_feats candidate clear)
  = map NewFeatureKey
      (filter (fun name => negb (first session (FeatureKey_by_name name)))
              (key_names (get_all_feats candidate)))
    ++ (if clear then [ NewFeature (row_of get_all_feats candidate) ] else [])
  /\ snapshot_result session (FAnnotatorUDF.apply get_all_feats candidate clear)
     = (if clear then Returned tt else Raised AttributeError).
Proof.
  destruct (snapshot_feats_loop session (get_all_feats candidate) [] []) as [Hr Ht].
  destruct clear.
  - unfold FAnnotatorUDF.apply.
    rewrite snapshot_trace_bind, snapshot_result_bind, Hr, Ht. split; reflexivity.
  - rewrite apply_without_clear_unfold.
    rewrite snapshot_trace_bind, snapshot_result_bind, Hr, Ht. split; reflexivity.
Qed.

(** ** [__repr__] of a key *)

Lemma append_same_prefix (s a b : string) :
  String.append s a = String.append s b -> a = b.
Proof.
  induction s as [|c s IH]; simpl; intros H; [exact H|].
  inversion H. auto.
Qed.

Lemma append_closing_paren (a b : string) :
  String.append a ")" = String.append b ")" -> a = b.
Proof.
  revert b. induction a as [|c a IH]; intros [|d b]; simpl; intros H.
  - reflexivity.
  - inversion H as [[Hc Hb]]. destruct b; discriminate.
  - inversion H as [[Hc Ha]]. destruct a; discriminate.
  - inversion H as [[Hc Hab]]. f_equal. apply IH. exact Hab.
Qed.

Lemma append_assoc3 (a b c : string) :
  String.append (String.append a b) c = String.append a (String.append b c).
Proof. induction a as [|x a IH]; simpl; [reflexivity | rewrite IH; reflexivity]. Qed.

(** X11. Two keys of one class print the same iff they have the same name:
    [__repr__] tells key names apart and shows neither [id] nor [group]. *)
Theorem FeatureKey_repr_same_iff_same_name (class_name : string) (k1 k2 : FeatureKey) :
  FeatureKey_repr class_name k1 = FeatureKey_repr class_name k2
  <-> key_name k1 = key_name k2.
Proof.
  unfold FeatureKey_repr. split.
  - intros H. apply append_closing_paren in H.
    rewrite !append_assoc3 in H.
    apply append_same_prefix in H. apply append_same_prefix in H. exact H.
  - intros ->. reflexivity.
Qed.
